(** * WPS text extractor: a shallow embedding of [wps_final_extractor.py]

    The extractor takes the raw bytes of a WPS document, tries a compound
    document (OLE) parse first and a plain binary parse second, decodes the
    bytes under three encodings, filters paragraphs, and cleans sentences.

    Python values are modelled as follows.
    - [str]   : the list of Unicode code points of the string ([Z] each).
    - [bytes] : [list byte].
    - [re]    : boolean searches through a small regular-expression type
                matched with derivatives; [re.sub] / [re.split] /
                [re.findall] over character classes as list functions.
    - [float] : the quotient [a / b] of two ints as the correctly rounded
                binary64 value, kept as mantissa and exponent.
    - exceptions : an [outcome] type, with [try]/[except] as a handler.
    - the Unicode database, the GBK table and the [olefile] package are
      not part of the repository: they are parameters of the model. *)

From Stdlib Require Import ZArith List Bool Lia QArith.
From Stdlib.Strings Require Import String Ascii Byte.
Import ListNotations.
Local Open Scope Z_scope.

(** ** Python strings and bytes *)

Definition char := Z.
Definition str := list char.
Definition bytes := list byte.

Definition byte_val (b : byte) : Z := Z.of_N (Byte.to_N b).

Definition in_range (lo hi c : Z) : bool := (lo <=? c) && (c <=? hi).

(** [len(s)] *)
Definition len (s : str) : Z := Z.of_nat (List.length s).

(** Truth value of a string: [if text], [if not text]. *)
Definition truthy (s : str) : bool :=
  match s with [] => false | _ :: _ => true end.

(** [c in l] for a character and a list of characters. *)
Definition mem (c : char) (l : list char) : bool := existsb (Z.eqb c) l.

Fixpoint str_eqb (a b : str) : bool :=
  match a, b with
  | [], [] => true
  | x :: a', y :: b' => (x =? y) && str_eqb a' b'
  | _, _ => false
  end.

(** [sep.join(parts)] *)
Fixpoint join (sep : str) (parts : list str) : str :=
  match parts with
  | [] => []
  | [p] => p
  | p :: rest => p ++ sep ++ join sep rest
  end.

(** [str.isspace] on one character, which is also the class [\s] of [re]
    on [str] patterns: the code points CPython's [_PyUnicode_IsWhitespace]
    accepts. *)
Definition isspace (c : char) : bool :=
  in_range 0x09 0x0D c || in_range 0x1C 0x1F c || (c =? 0x20)
  || (c =? 0x85) || (c =? 0xA0) || (c =? 0x1680)
  || in_range 0x2000 0x200A c || (c =? 0x2028) || (c =? 0x2029)
  || (c =? 0x202F) || (c =? 0x205F) || (c =? 0x3000).

Fixpoint lstrip (s : str) : str :=
  match s with
  | [] => []
  | c :: t => if isspace c then lstrip t else s
  end.

Definition rstrip (s : str) : str := rev (lstrip (rev s)).

(** [s.strip()] *)
Definition strip (s : str) : str := rstrip (lstrip s).

(** [s.endswith(suffix)] for a one-character suffix. *)
Definition endswith_char (s : str) (c : char) : bool :=
  match rev s with
  | [] => false
  | x :: _ => x =? c
  end.

(** ** Codecs: [bytes.decode(encoding, errors='ignore')]

    With [errors='ignore'] a decoder never raises: the bytes of a malformed
    sequence are skipped and decoding goes on behind them. The three
    functions below follow CPython's decoders over the list of byte values. *)

Definition is_continuation (b : Z) : bool := in_range 0x80 0xBF b.

(** UTF-8, after [utf8_decode] of CPython's [stringlib/codecs.h]: an invalid
    start byte is skipped alone; an invalid continuation byte ends the
    sequence before it (the bytes read so far are skipped); a sequence cut
    off by the end of the data is skipped to the end. *)
Fixpoint utf8_decode (s : list Z) : str :=
  match s with
  | [] => []
  | ch :: t1 =>
    if ch <? 0x80 then ch :: utf8_decode t1
    else if ch <? 0xC2 then utf8_decode t1
    else if ch <? 0xE0 then
      match t1 with
      | [] => []
      | ch2 :: t2 =>
        if negb (is_continuation ch2) then utf8_decode t1
        else ((Z.shiftl ch 6) + ch2 - ((Z.shiftl 0xC0 6) + 0x80)) :: utf8_decode t2
      end
    else if ch <? 0xF0 then
      match t1 with
      | [] => []
      | ch2 :: t2 =>
        if negb (is_continuation ch2)
           || (if ch2 <? 0xA0 then ch =? 0xE0 else ch =? 0xED)
        then utf8_decode t1
        else
          match t2 with
          | [] => []
          | ch3 :: t3 =>
            if negb (is_continuation ch3) then utf8_decode t2
            else ((Z.shiftl ch 12) + (Z.shiftl ch2 6) + ch3
                  - ((Z.shiftl 0xE0 12) + (Z.shiftl 0x80 6) + 0x80))
                 :: utf8_decode t3
          end
      end
    else if ch <? 0xF5 then
      match t1 with
      | [] => []
      | ch2 :: t2 =>
        if negb (is_continuation ch2)
           || (if ch2 <? 0x90 then ch =? 0xF0 else ch =? 0xF4)
        then utf8_decode t1
        else
          match t2 with
          | [] => []
          | ch3 :: t3 =>
            if negb (is_continuation ch3) then utf8_decode t2
            else
              match t3 with
              | [] => []
              | ch4 :: t4 =>
                if negb (is_continuation ch4) then utf8_decode t3
                else ((Z.shiftl ch 18) + (Z.shiftl ch2 12) + (Z.shiftl ch3 6) + ch4
                      - ((Z.shiftl 0xF0 18) + (Z.shiftl 0x80 12)
                         + (Z.shiftl 0x80 6) + 0x80))
                     :: utf8_decode t4
              end
          end
      end
    else utf8_decode t1
  end.

(** [data.decode('utf-8', errors='ignore')] *)
Definition decode_utf8 (data : bytes) : str := utf8_decode (map byte_val data).

Definition is_high_surrogate (u : Z) : bool := in_range 0xD800 0xDBFF u.
Definition is_low_surrogate (u : Z) : bool := in_range 0xDC00 0xDFFF u.

(** UTF-16LE, after [utf16_decode] and [PyUnicode_DecodeUTF16Stateful]: a
    trailing odd byte is skipped; a lone low surrogate is skipped; a high
    surrogate not followed by a low one is skipped alone; a high surrogate
    followed by fewer than two bytes is skipped with what follows it. *)
Fixpoint utf16le_decode (s : list Z) : str :=
  match s with
  | lo :: hi :: t2 =>
    let ch := Z.lor (Z.shiftl hi 8) lo in
    if is_low_surrogate ch then utf16le_decode t2
    else if is_high_surrogate ch then
      match t2 with
      | lo2 :: hi2 :: t4 =>
        let ch2 := Z.lor (Z.shiftl hi2 8) lo2 in
        if is_low_surrogate ch2
        then (0x10000 + Z.shiftl (Z.land ch 0x3FF) 10 + Z.land ch2 0x3FF)
             :: utf16le_decode t4
        else utf16le_decode t2
      | _ => []
      end
    else ch :: utf16le_decode t2
  | _ => []
  end.

(** [data.decode('utf-16le', errors='ignore')] *)
Definition decode_utf16le (data : bytes) : str := utf16le_decode (map byte_val data).

(** GBK, after the [gbk] decoder of CPython's [_codecs_cn.c]: a byte below
    0x80 is itself; otherwise a lead byte and a trail byte are looked up in
    the code table [table]; a pair that is not in the table skips the lead
    byte alone, and a lead byte at the very end is skipped. *)
Fixpoint gbk_decode (table : Z -> Z -> option char) (s : list Z) : str :=
  match s with
  | [] => []
  | c :: t1 =>
    if c <? 0x80 then c :: gbk_decode table t1
    else
      match t1 with
      | [] => []
      | c2 :: t2 =>
        match table c c2 with
        | Some u => u :: gbk_decode table t2
        | None => gbk_decode table t1
        end
      end
  end.

(** String literals of the source, written in UTF-8 as the source file is. *)
Definition u (lit : string) : str := utf8_decode (map byte_val (list_byte_of_string lit)).

(** ** Regular expressions

    The boolean uses of [re.search] go through [regex], matched by
    derivatives. A character class is a predicate on code points. *)

Inductive regex : Type :=
| Void : regex
| Eps : regex
| Chr : (char -> bool) -> regex
| Cat : regex -> regex -> regex
| Alt : regex -> regex -> regex
| Star : regex -> regex.

Fixpoint nullable (r : regex) : bool :=
  match r with
  | Void => false
  | Eps => true
  | Chr _ => false
  | Cat r1 r2 => nullable r1 && nullable r2
  | Alt r1 r2 => nullable r1 || nullable r2
  | Star _ => true
  end.

(** Concatenation and alternation that drop [Void] and [Eps] operands, so
    that derivatives stay small. *)
Definition cat (r1 r2 : regex) : regex :=
  match r1, r2 with
  | Void, _ => Void
  | _, Void => Void
  | Eps, _ => r2
  | _, _ => Cat r1 r2
  end.

Definition alt (r1 r2 : regex) : regex :=
  match r1, r2 with
  | Void, _ => r2
  | _, Void => r1
  | _, _ => Alt r1 r2
  end.

Fixpoint deriv (c : char) (r : regex) : regex :=
  match r with
  | Void => Void
  | Eps => Void
  | Chr p => if p c then Eps else Void
  | Cat r1 r2 =>
    if nullable r1 then alt (cat (deriv c r1) r2) (deriv c r2)
    else cat (deriv c r1) r2
  | Alt r1 r2 => alt (deriv c r1) (deriv c r2)
  | Star r1 => cat (deriv c r1) (Star r1)
  end.

(** The whole of [s] matches [r]. *)
Fixpoint fullmatch (r : regex) (s : str) : bool :=
  match s with
  | [] => nullable r
  | c :: t => fullmatch (deriv c r) t
  end.

(** The strings a pattern denotes, against which the matcher is proved. *)
Inductive lang : regex -> str -> Prop :=
| lang_eps : lang Eps []
| lang_chr (p : char -> bool) (c : char) : p c = true -> lang (Chr p) [c]
| lang_cat (r1 r2 : regex) (s1 s2 : str) :
    lang r1 s1 -> lang r2 s2 -> lang (Cat r1 r2) (s1 ++ s2)
| lang_alt_l (r1 r2 : regex) (s : str) : lang r1 s -> lang (Alt r1 r2) s
| lang_alt_r (r1 r2 : regex) (s : str) : lang r2 s -> lang (Alt r1 r2) s
| lang_star_nil (r : regex) : lang (Star r) []
| lang_star_cons (r : regex) (s1 s2 : str) :
    lang r s1 -> lang (Star r) s2 -> lang (Star r) (s1 ++ s2).

Definition any_char : regex := Chr (fun _ => true).

(** [bool(re.search(r, s))] for a pattern without anchors: some substring
    of [s] matches [r]. *)
Definition search (r : regex) (s : str) : bool :=
  fullmatch (Cat (Star any_char) (Cat r (Star any_char))) s.

(** [r+], [r{2,}] and [r{1,3}]. *)
Definition Plus (r : regex) : regex := Cat r (Star r).
Definition AtLeast2 (r : regex) : regex := Cat r (Cat r (Star r)).
Definition UpTo3 (r : regex) : regex := Cat r (Alt Eps (Cat r (Alt Eps r))).

(** A sequence of one-character patterns. *)
Fixpoint Seq (ps : list (char -> bool)) : regex :=
  match ps with
  | [] => Eps
  | p :: ps' => Cat (Chr p) (Seq ps')
  end.

(** The dot: any character but a newline. *)
Definition dot (c : char) : bool := negb (c =? 0x0A).

(** *** Matching under [re.IGNORECASE]

    A literal character of the pattern matches a subject character whose
    lower case it is; for the letters of the patterns of this program the
    only subject characters outside ASCII that fold to them are U+0130 and
    U+0131 (to i), U+017F (to s) and U+212A (to k). *)

Definition is_upper (c : char) : bool := in_range 0x41 0x5A c.
Definition is_lower (c : char) : bool := in_range 0x61 0x7A c.
Definition is_letter (c : char) : bool := is_upper c || is_lower c.
Definition ascii_lower (c : char) : char := if is_upper c then c + 32 else c.

Definition folds_to (lo c : char) : bool :=
  (ascii_lower c =? lo)
  || ((lo =? 0x69) && ((c =? 0x130) || (c =? 0x131)))
  || ((lo =? 0x73) && (c =? 0x17F))
  || ((lo =? 0x6B) && (c =? 0x212A)).

(** The subject characters a literal [p] matches under [re.IGNORECASE]. *)
Definition ignorecase (p : char) : char -> bool := folds_to (ascii_lower p).

(** A literal string as a pattern under [re.IGNORECASE]. *)
Definition Lit_i (lit : str) : regex := Seq (map ignorecase lit).

(** [A-Za-z] under [re.IGNORECASE]. *)
Definition is_letter_i (c : char) : bool :=
  is_letter c || (c =? 0x130) || (c =? 0x131) || (c =? 0x17F) || (c =? 0x212A).

(** *** [re.findall], [re.sub] and [re.split] over character classes *)

(** [len(re.findall(r'[class]', s))] *)
Definition count_class (p : char -> bool) (s : str) : Z := len (filter p s).

(** [re.sub(r'[class]', '', s)] *)
Definition remove_class (p : char -> bool) (s : str) : str :=
  filter (fun c => negb (p c)) s.

(** [re.split(r'[class]', s)]: every character of the class separates. *)
Fixpoint split_class (p : char -> bool) (s : str) : list str :=
  match s with
  | [] => [[]]
  | c :: t =>
    if p c then [] :: split_class p t
    else
      match split_class p t with
      | [] => [[c]]
      | w :: ws => (c :: w) :: ws
      end
  end.

(** [re.split(r'[class]+', s)]: every maximal run of the class separates;
    [in_run] says that the previous character was of the class. *)
Fixpoint split_runs_from (p : char -> bool) (in_run : bool) (s : str) : list str :=
  match s with
  | [] => [[]]
  | c :: t =>
    if p c then
      if in_run then split_runs_from p true t
      else [] :: split_runs_from p true t
    else
      match split_runs_from p false t with
      | [] => [[c]]
      | w :: ws => (c :: w) :: ws
      end
  end.

Definition split_runs (p : char -> bool) (s : str) : list str :=
  split_runs_from p false s.

(** [re.sub(r'[class]+', repl, s)] *)
Fixpoint sub_runs_from (p : char -> bool) (repl : str) (in_run : bool) (s : str) : str :=
  match s with
  | [] => []
  | c :: t =>
    if p c then
      if in_run then sub_runs_from p repl true t
      else repl ++ sub_runs_from p repl true t
    else c :: sub_runs_from p repl false t
  end.

Definition sub_runs (p : char -> bool) (repl : str) (s : str) : str :=
  sub_runs_from p repl false s.

(** [re.sub(r'[class]{2,}', repl, s)]: a run of one character stays. *)
Fixpoint sub_runs2_from (p : char -> bool) (repl : str) (in_run : bool) (s : str) : str :=
  match s with
  | [] => []
  | c :: t =>
    if p c then
      if in_run then sub_runs2_from p repl true t
      else
        match t with
        | c2 :: _ =>
          if p c2 then repl ++ sub_runs2_from p repl true t
          else c :: sub_runs2_from p repl false t
        | [] => [c]
        end
    else c :: sub_runs2_from p repl false t
  end.

Definition sub_runs2 (p : char -> bool) (repl : str) (s : str) : str :=
  sub_runs2_from p repl false s.

(** [s.startswith(prefix)] *)
Fixpoint startswith (prefix s : str) : bool :=
  match prefix, s with
  | [], _ => true
  | x :: prefix', y :: s' => (x =? y) && startswith prefix' s'
  | _ :: _, [] => false
  end.

(** [re.sub(lit + r'\s*', '', s)] for a literal [lit] of [S n] characters:
    [skip] counts the characters of a match still to pass, and [eat] says
    that the scan stands behind a match, inside its whitespace. *)
Fixpoint sub_lit_ws_from (lit : str) (n : nat) (skip : nat) (eat : bool) (s : str) : str :=
  match s with
  | [] => []
  | c :: t =>
    match skip with
    | S k => sub_lit_ws_from lit n k true t
    | O =>
      if eat && isspace c then sub_lit_ws_from lit n O true t
      else if startswith lit (c :: t) then sub_lit_ws_from lit n n true t
      else c :: sub_lit_ws_from lit n O false t
    end
  end.

Definition sub_lit_ws (lit : str) (s : str) : str :=
  sub_lit_ws_from lit (Nat.pred (List.length lit)) O false s.

(** ** Floats

    [chinese_chars / total_chars] is the true division of two ints: the
    binary64 value nearest to the exact quotient, ties to even. A positive
    value is kept as [mant * 2 ^ expo] with [2^52 <= mant <= 2^53]; the
    quotients of this program lie in [2^-63, 1], far from the subnormal and
    overflow ranges, which are left out. *)

Record float : Type := mkFloat { mant : Z; expo : Z }.

(** [n / d] rounded to the nearest integer, ties to even ([0 < d]). *)
Definition round_half_even (n d : Z) : Z :=
  let q := n / d in
  let r := n mod d in
  if 2 * r <? d then q
  else if d <? 2 * r then q + 1
  else if Z.even q then q else q + 1.

(** [2 ^ e <= a / b], for positive [a] and [b]. *)
Definition quotient_ge_pow2 (a b e : Z) : bool :=
  if 0 <=? e then b * 2 ^ e <=? a else b <=? a * 2 ^ (- e).

(** The exponent [e] with [2 ^ e <= a / b < 2 ^ (e + 1)]. *)
Definition binade (a b : Z) : Z :=
  let e0 := Z.log2 a - Z.log2 b in
  if quotient_ge_pow2 a b e0 then e0 else e0 - 1.

(** [a / b] for ints [0 <= a] and [0 < b]. *)
Definition truediv (a b : Z) : float :=
  if a =? 0 then mkFloat 0 0
  else
    let k := 52 - binade a b in
    let m := if 0 <=? k then round_half_even (a * 2 ^ k) b
             else round_half_even a (b * 2 ^ (- k)) in
    mkFloat m (- k).

(** [x < y] on floats. *)
Definition float_lt (x y : float) : bool :=
  let e := Z.min (expo x) (expo y) in
  mant x * 2 ^ (expo x - e) <? mant y * 2 ^ (expo y - e).

(** The literal [0.4]: the binary64 value 0x3FD999999999999A, which is
    7205759403792794 * 2^-54, a little above 4/10. *)
Definition float_0_4 : float := mkFloat 7205759403792794 (-54).

(** ** Exceptions *)

Inductive outcome (A : Type) : Type :=
| Ok (a : A)
| Raise (msg : str).
Arguments Ok {A} a.
Arguments Raise {A} msg.

Definition bind {A B : Type} (m : outcome A) (k : A -> outcome B) : outcome B :=
  match m with
  | Ok a => k a
  | Raise e => Raise e
  end.

Notation "x <- m ;; k" := (bind m (fun x => k))
  (at level 61, m at next level, right associativity).

(** [try: body finally: cleanup]: the cleanup always runs, and what it
    raises replaces the body's outcome. *)
Definition finally {A : Type} (body : outcome A) (cleanup : outcome unit) : outcome A :=
  match cleanup with
  | Ok _ => body
  | Raise e => Raise e
  end.

(** [try: body except Exception as e: handler(str(e))] *)
Definition try_except {A : Type} (body : outcome A) (handler : str -> A) : A :=
  match body with
  | Ok a => a
  | Raise e => handler e
  end.

(** ** The [olefile] package and the temporary file

    What [_extract_with_ole] asks of its environment, each operation
    applied to the bytes written to the temporary file; any of them may
    raise. *)
Record olefile_api : Type := {
  (** [import olefile] *)
  import_olefile : outcome unit;
  (** [tempfile.NamedTemporaryFile(...)] and [tmp_file.write(file_data)] *)
  tmp_write : bytes -> outcome unit;
  (** [os.path.exists(tmp_file_path)] and [os.unlink(tmp_file_path)] *)
  tmp_unlink : bytes -> outcome unit;
  (** [olefile.isOleFile(tmp_file_path)] *)
  isOleFile : bytes -> outcome bool;
  (** [olefile.OleFileIO(tmp_file_path)] *)
  OleFileIO : bytes -> outcome unit;
  (** [ole.exists('WordDocument')] *)
  ole_exists : bytes -> outcome bool;
  (** [ole.openstream('WordDocument').read()] *)
  ole_read : bytes -> outcome bytes;
  (** [word_doc_stream.close()] *)
  stream_close : bytes -> outcome unit;
  (** [ole.close()] *)
  ole_close : bytes -> outcome unit
}.

(** ** Character classes of the program *)

Definition newline : str := [0x0A].

(** [一-鿿] *)
Definition is_cjk (c : char) : bool := in_range 0x4E00 0x9FFF c.

(** [\x00-\x1f] *)
Definition is_c0_control (c : char) : bool := in_range 0x00 0x1F c.

(** [\x00-\x08\x0b\x0c\x0e-\x1f\x7f-\x9f] *)
Definition is_control (c : char) : bool :=
  in_range 0x00 0x08 c || (c =? 0x0B) || (c =? 0x0C)
  || in_range 0x0E 0x1F c || in_range 0x7F 0x9F c.

(** The class of [re.split(r'[。！？.!?]', ...)]. *)
Definition sentence_end : str := u "。！？.!?".
Definition is_sentence_end (c : char) : bool := mem c sentence_end.

(** [.,!?;:] *)
Definition is_punct (c : char) : bool := mem c (u ".,!?;:").

(** The class of [_clean_text]'s basic cleaning, before its negation:
    [一-鿿 -~　-〿＀-￯\s]. *)
Definition is_allowed (c : char) : bool :=
  is_cjk c || in_range 0x20 0x7E c || in_range 0x3000 0x303F c
  || in_range 0xFF00 0xFFEF c || isspace c.

(** The noise symbols of the garbled-text detector. *)
Definition noise_symbols : str := u "`\/_<>{}|~".
Definition is_noise_symbol (c : char) : bool := mem c noise_symbols.

(** The characters of the detector's last pattern. *)
Definition garbled_chars : str :=
  u "剉諲鴙蛻颯錘廱銐恎購汵蟢蛓筫誰龕陙馷俌済烻薡鵞坃亯擽揯筟鯪魐鬴昢觺刧".

(** The class of the two token patterns of [_is_metadata]: the digits
    and the ASCII symbols other than the exclamation mark (0x22 is the
    double quote, which the source escapes). *)
Definition token_symbols : str := u "@#$%^&*()_+=[]{}|\:" ++ [0x22] ++ u ";'<>?,./`~-".
Definition is_token_symbol (c : char) : bool :=
  in_range 0x30 0x39 c || mem c token_symbols.

(** Printable ASCII and the ideographs of the first version of Unicode. *)
Definition plain (c : char) : bool := in_range 0x20 0x7E c || in_range 0x4E00 0x9FA5 c.

(** The metadata patterns of [_is_metadata] that are literal strings: names
    of the container's entries and property blocks, a build marker and
    font names. *)
Definition metadata_literals : list str :=
  [ u "CJOJPJQJ"; u "Root Entry"; u "SummaryInformation";
    u "DocumentSummaryInformation"; u "KSOProductBuildVer";
    u "Times New Roman"; u "Calibri"; u "Arial"; u "Courier New" ].

(** [variant] is [lit] in some letter case. *)
Definition same_ignoring_case (variant lit : str) : Prop :=
  map ascii_lower variant = map ascii_lower lit.

(** A string of letters and spaces, with a letter at both ends. *)
Definition starts_with_letter (s : str) : bool :=
  match s with
  | [] => false
  | c :: _ => is_letter c
  end.

Definition wordy (s : str) : bool :=
  starts_with_letter s && starts_with_letter (rev s)
  && forallb (fun c => is_letter c || (c =? 0x20)) s.

(** The two paragraphs of the specification's filtering example. *)
Definition times_new_roman : str := u "Times New Roman".
Definition body_paragraph : str := u "这是一个测试文档的正文内容".

(** The messages of [extract_text_from_wps_stream]. *)
Definition no_text_message : str := u "未能从WPS文件中提取到有效文本内容".
Definition failure_message (e : str) : str := u "提取失败: " ++ e.

(** ** A fragment of the parameters, to run the model on examples

    The tables below agree with the Unicode database on the characters
    they accept: the ideographs of its first version are printable
    letters, as is the CJK punctuation next to U+3000, and no whitespace
    character is alphanumeric. The reader accepts a file by the magic
    number of a compound document and finds no stream in it. *)

Definition sample_printable (c : char) : bool :=
  in_range 0x4E00 0x9FA5 c || in_range 0x3001 0x3011 c.

Definition sample_alnum (c : char) : bool := in_range 0x4E00 0x9FA5 c.

Definition sample_decimal (c : char) : bool := in_range 0xFF10 0xFF19 c.

(** One pair of the GBK table: D6 D0 is U+4E2D. *)
Definition sample_gbk (c c2 : Z) : option char :=
  if (c =? 0xD6) && (c2 =? 0xD0) then Some 0x4E2D else None.

Definition ole_magic : list Z := [0xD0; 0xCF; 0x11; 0xE0; 0xA1; 0xB1; 0x1A; 0xE1].

Definition sample_ole : olefile_api :=
  {| import_olefile := Ok tt;
     tmp_write := fun _ => Ok tt;
     tmp_unlink := fun _ => Ok tt;
     isOleFile := fun data => Ok (startswith ole_magic (map byte_val data));
     OleFileIO := fun _ => Ok tt;
     ole_exists := fun _ => Ok false;
     ole_read := fun _ => Raise (u "stream not found");
     stream_close := fun _ => Ok tt;
     ole_close := fun _ => Ok tt |}.

(** A reader that finds the stream [stream_data] in every file with the
    magic number. *)
Definition sample_container (stream_data : bytes) : olefile_api :=
  {| import_olefile := Ok tt;
     tmp_write := fun _ => Ok tt;
     tmp_unlink := fun _ => Ok tt;
     isOleFile := fun data => Ok (startswith ole_magic (map byte_val data));
     OleFileIO := fun _ => Ok tt;
     ole_exists := fun _ => Ok true;
     ole_read := fun _ => Ok stream_data;
     stream_close := fun _ => Ok tt;
     ole_close := fun _ => Ok tt |}.

(** A file that starts with the magic number. *)
Definition sample_file : bytes := [xd0; xcf; x11; xe0; xa1; xb1; x1a; xe1; x00; x00].

(** ** The extractor *)

Section Extractor.

(** The Unicode database beyond ASCII: [str.isprintable], the alphanumeric
    characters of [\w] and the decimal digits of [\d]. *)
Variable unicode_printable : char -> bool.
Variable unicode_alnum : char -> bool.
Variable unicode_decimal : char -> bool.

(** The code table of the GBK codec: lead byte, trail byte, character. *)
Variable gbk_table : Z -> Z -> option char.

(** The [olefile] package and the temporary file. *)
Variable ole : olefile_api.

(** What the properties below assume of the Unicode database: the
    ideographs of its first version are printable, and no whitespace
    character is alphanumeric. *)
Hypothesis ideographs_printable :
  forall c, in_range 0x4E00 0x9FA5 c = true -> unicode_printable c = true.
Hypothesis whitespace_not_alnum :
  forall c, isspace c = true -> unicode_alnum c = false.

(** [c.isprintable()] *)
Definition isprintable (c : char) : bool :=
  if c <? 0x80 then in_range 0x20 0x7E c else unicode_printable c.

(** [\w] *)
Definition is_word (c : char) : bool :=
  if c <? 0x80 then is_letter c || in_range 0x30 0x39 c || (c =? 0x5F)
  else unicode_alnum c.

(** [\d] *)
Definition is_digit (c : char) : bool :=
  if c <? 0x80 then in_range 0x30 0x39 c else unicode_decimal c.

(** [data.decode('gbk', errors='ignore')] *)
Definition decode_gbk (data : bytes) : str := gbk_decode gbk_table (map byte_val data).

(** A pattern of [_is_metadata]: searched anywhere, or anchored at both
    ends by [^] and [$]. *)
Inductive pattern : Type :=
| Anywhere (r : regex)
| Anchored (r : regex).

(** [bool(re.search(pattern, text, re.IGNORECASE))] *)
Definition re_search (p : pattern) (text : str) : bool :=
  match p with
  | Anywhere r => search r text
  | Anchored r => fullmatch r text
  end.

Definition metadata_patterns : list pattern :=
  [ Anywhere (Lit_i (u "CJOJPJQJ"));
    Anywhere (Lit_i (u "Root Entry"));
    Anywhere (Lit_i (u "SummaryInformation"));
    Anywhere (Lit_i (u "DocumentSummaryInformation"));
    Anywhere (Lit_i (u "KSOProductBuildVer"));
    Anywhere (Lit_i (u "Times New Roman"));
    Anywhere (Lit_i (u "Calibri"));
    Anywhere (Lit_i (u "Arial"));
    Anywhere (Lit_i (u "Courier New"));
    Anywhere (Cat (Lit_i (u "HTML")) (Cat (Star (Chr dot)) (Lit_i (u "代码"))));
    Anywhere (Cat (Lit_i (u "mH")) (Cat (Star (Chr dot))
             (Cat (Lit_i (u "sH")) (Cat (Star (Chr dot)) (Lit_i (u "nHtH"))))));
    Anchored (Cat (Star (Chr isspace))
             (Cat (Plus (Chr is_token_symbol)) (Star (Chr isspace))));
    Anchored (Cat (Star (Chr isspace))
             (Cat (UpTo3 (Chr (fun c => is_letter_i c || is_token_symbol c)))
                  (Star (Chr isspace)))) ].

Definition _is_metadata (text : str) : bool :=
  existsb (fun p => re_search p text) metadata_patterns.

(** The body of the loop of [_extract_meaningful_text] on one paragraph:
    [Some] what is appended to [meaningful_segments], [None] when the
    paragraph is passed over. *)
Definition keep_paragraph (paragraph : str) : option str :=
  let paragraph := strip paragraph in
  if len paragraph <? 5 then None
  else
    let clean_paragraph :=
      filter (fun c => isprintable c || mem c [0x0A; 0x09; 0x20]) paragraph in
    if negb (truthy (strip clean_paragraph)) then None
    else
      let has_chinese := search (Chr is_cjk) clean_paragraph in
      let has_english_words := search (AtLeast2 (Chr is_letter)) clean_paragraph in
      if _is_metadata clean_paragraph then None
      else if has_chinese || has_english_words then Some clean_paragraph
      else None.

Definition kept {A : Type} (o : option A) : list A :=
  match o with
  | Some a => [a]
  | None => []
  end.

(** The list [meaningful_segments] of [_extract_meaningful_text] when its
    loop ends. *)
Definition meaningful_segments (text : str) : list str :=
  let paragraphs := split_runs is_c0_control text in
  flat_map (fun paragraph => kept (keep_paragraph paragraph)) paragraphs.

Definition _extract_meaningful_text (text : str) : str :=
  if negb (truthy text) || (len (strip text) <? 5) then []
  else join newline (meaningful_segments text).

(** One decoding attempt of [_parse_stream_data]: what it appends to
    [text_segments]. *)
Definition decode_attempt (text : str) : list str :=
  let clean_text := _extract_meaningful_text text in
  if truthy clean_text then [clean_text] else [].

Definition _parse_stream_data (data : bytes) : str :=
  let text_segments :=
    decode_attempt (decode_utf16le data)
    ++ decode_attempt (decode_utf8 data)
    ++ decode_attempt (decode_gbk data) in
  join newline text_segments.

Definition _extract_with_binary (file_data : bytes) : str :=
  _parse_stream_data file_data.

Definition _extract_with_ole (file_data : bytes) : str :=
  try_except
    (_ <- import_olefile ole ;;
     _ <- tmp_write ole file_data ;;
     finally
       (is_ole <- isOleFile ole file_data ;;
        if negb is_ole then Ok []
        else
          _ <- OleFileIO ole file_data ;;
          has_stream <- ole_exists ole file_data ;;
          text_results <-
            (if has_stream then
               stream_data <- ole_read ole file_data ;;
               let text := _parse_stream_data stream_data in
               _ <- stream_close ole file_data ;;
               Ok (if truthy text then [text] else [])
             else Ok []) ;;
          _ <- ole_close ole file_data ;;
          Ok (join newline text_results))
       (tmp_unlink ole file_data))
    (fun _ => []).

Definition garbled_patterns : list regex :=
  [ Cat (AtLeast2 (Chr is_letter)) (Cat (Plus (Chr is_digit)) (AtLeast2 (Chr is_letter)));
    AtLeast2 (Chr is_noise_symbol);
    Seq [is_cjk; is_letter; is_cjk; is_letter];
    Chr (fun c => mem c garbled_chars) ].

Definition _is_garbled_text (text : str) : bool :=
  if negb (truthy text) || (len text <? 3) then true
  else
    let chinese_chars := count_class is_cjk text in
    let total_chars := len (remove_class isspace text) in
    if total_chars =? 0 then true
    else
      let chinese_ratio := truediv chinese_chars total_chars in
      if float_lt chinese_ratio float_0_4 then true
      else
        let special_chars := count_class is_noise_symbol text in
        if 3 <? special_chars then true
        else existsb (fun p => search p text) garbled_patterns.

(** [re.sub(r'\b[A-Za-z]{1}\b', '', s)]: a letter goes when neither the
    character before it ([prev]) nor the one behind it is a word
    character. *)
Fixpoint remove_single_letters_from (prev : option char) (s : str) : str :=
  match s with
  | [] => []
  | c :: t =>
    let before := match prev with Some a => is_word a | None => false end in
    let behind := match t with d :: _ => is_word d | [] => false end in
    if is_letter c && negb before && negb behind
    then remove_single_letters_from (Some c) t
    else c :: remove_single_letters_from (Some c) t
  end.

Definition remove_single_letters (s : str) : str := remove_single_letters_from None s.

(** The basic cleaning of one part in [_clean_text]. *)
Definition clean_part (part : str) : str :=
  let cleaned_part := sub_runs (fun c => negb (is_allowed c)) (u " ") part in
  let cleaned_part := sub_lit_ws (u "ph333") cleaned_part in
  let cleaned_part := remove_single_letters cleaned_part in
  strip (sub_runs isspace (u " ") cleaned_part).

(** The body of the loop of [_clean_text] on one part: [Some] what is
    appended to [sentences]. *)
Definition keep_sentence (part : str) : option str :=
  let part := strip part in
  if negb (truthy part) then None
  else if search (Chr is_cjk) part then
    let cleaned_part := clean_part part in
    if negb (_is_garbled_text cleaned_part) && (8 <? len cleaned_part)
    then Some cleaned_part
    else None
  else None.

(** The list [sentences] of [_clean_text] when its loop ends. *)
Definition sentences_of (text : str) : list str :=
  let cleaned := remove_class is_control text in
  let parts := split_class is_sentence_end cleaned in
  flat_map (fun part => kept (keep_sentence part)) parts.

(** What [_clean_text] does with [sentences] behind the loop. *)
Definition assemble (sentences : list str) : str :=
  let result := join (u ". ") sentences in
  let result :=
    if truthy result && negb (endswith_char result 0x2E) then result ++ u "." else result in
  let result := sub_runs isspace (u " ") result in
  let result := sub_runs2 is_punct (u ".") result in
  strip result.

Definition _clean_text (text : str) : str :=
  if negb (truthy text) then []
  else assemble (sentences_of text).

(** The body of the [try] of [extract_text_from_wps_stream], over the three
    calls it makes. *)
Definition extract_body (with_ole with_binary : bytes -> outcome str)
    (clean : str -> outcome str) (byte_stream : bytes) : outcome str :=
  ole_text <- with_ole byte_stream ;;
  if truthy ole_text && (20 <? len (strip ole_text)) then clean ole_text
  else
    binary_text <- with_binary byte_stream ;;
    if truthy binary_text && (10 <? len (strip binary_text)) then clean binary_text
    else Ok no_text_message.

(** [try: ... except Exception as e: return f"提取失败: {str(e)}"] *)
Definition extract_guarded (with_ole with_binary : bytes -> outcome str)
    (clean : str -> outcome str) (byte_stream : bytes) : str :=
  try_except (extract_body with_ole with_binary clean byte_stream) failure_message.

Definition extract_text_from_wps_stream (byte_stream : bytes) : str :=
  extract_guarded (fun d => Ok (_extract_with_ole d))
                  (fun d => Ok (_extract_with_binary d))
                  (fun t => Ok (_clean_text t))
                  byte_stream.


(** * Properties of the library layer *)

(** ** The matcher against the denotation of patterns *)

Lemma lang_cat_smart (r1 r2 : regex) (s : str) : lang (cat r1 r2) s <-> lang (Cat r1 r2) s.
Proof.
  split; intros H.
  - destruct r1, r2; simpl in H; try exact H; try (inversion H; fail);
      try (rewrite <- (app_nil_l s); constructor; [constructor | exact H]).
  - inversion H as [| |r1' r2' s1 s2 H1 H2| | | |]; subst.
    destruct r1, r2; simpl; try (constructor; assumption);
      try (inversion H1; fail); try (inversion H2; fail);
      try (inversion H1; subst; simpl; exact H2).
Qed.

Lemma lang_alt_smart (r1 r2 : regex) (s : str) : lang (alt r1 r2) s <-> lang (Alt r1 r2) s.
Proof.
  split; intros H.
  - destruct r1, r2; simpl in H; try exact H;
      try (apply lang_alt_r; exact H); try (apply lang_alt_l; exact H).
  - inversion H; subst;
      destruct r1, r2; simpl; try assumption;
      try (match goal with X : lang Void _ |- _ => inversion X end);
      try (apply lang_alt_l; assumption); try (apply lang_alt_r; assumption).
Qed.

Lemma nullable_lang (r : regex) : nullable r = true <-> lang r [].
Proof.
  induction r as [| |p|r1 IH1 r2 IH2|r1 IH1 r2 IH2|r IH]; simpl; split; intros H.
  - discriminate.
  - inversion H.
  - constructor.
  - reflexivity.
  - discriminate.
  - inversion H.
  - apply andb_true_iff in H as [H1 H2].
    rewrite <- (app_nil_l []). constructor; [now apply IH1 | now apply IH2].
  - inversion H as [| |r1' r2' s1 s2 H1 H2| | | |]; subst.
    match goal with E : _ ++ _ = [] |- _ => apply app_eq_nil in E as [-> ->] end.
    apply andb_true_iff. split; [now apply IH1 | now apply IH2].
  - apply orb_true_iff in H as [H|H];
      [apply lang_alt_l; now apply IH1 | apply lang_alt_r; now apply IH2].
  - apply orb_true_iff. inversion H; subst; [left; now apply IH1 | right; now apply IH2].
  - constructor.
  - reflexivity.
Qed.

Lemma deriv_complete (r : regex) (x : str) :
  lang r x -> forall c s, x = c :: s -> lang (deriv c r) s.
Proof.
  induction 1 as [|p c' Hp|r1 r2 s1 s2 H1 IH1 H2 IH2|r1 r2 x H1 IH1|r1 r2 x H2 IH2
                  |r|r s1 s2 H1 IH1 H2 IH2]; intros c s Heq; simpl.
  - discriminate.
  - injection Heq as -> <-. rewrite Hp. constructor.
  - destruct s1 as [|c1 s1].
    + simpl in Heq. apply nullable_lang in H1. rewrite H1.
      apply lang_alt_smart, lang_alt_r. now apply IH2.
    + simpl in Heq. injection Heq as -> <-.
      assert (Hc : lang (cat (deriv c r1) r2) (s1 ++ s2)).
      { apply lang_cat_smart. constructor; [now apply IH1 | exact H2]. }
      destruct (nullable r1); [apply lang_alt_smart, lang_alt_l|]; exact Hc.
  - apply lang_alt_smart, lang_alt_l. now apply IH1.
  - apply lang_alt_smart, lang_alt_r. now apply IH2.
  - discriminate.
  - destruct s1 as [|c1 s1].
    + simpl in Heq. now apply IH2.
    + simpl in Heq. injection Heq as -> <-.
      apply lang_cat_smart. constructor; [now apply IH1 | exact H2].
Qed.

Lemma deriv_sound (r : regex) : forall c s, lang (deriv c r) s -> lang r (c :: s).
Proof.
  induction r as [| |p|r1 IH1 r2 IH2|r1 IH1 r2 IH2|r IH]; intros c s H; simpl in H.
  - inversion H.
  - inversion H.
  - destruct (p c) eqn:Hp; inversion H; subst. now constructor.
  - assert (Hleft : lang (cat (deriv c r1) r2) s -> lang (Cat r1 r2) (c :: s)).
    { intros Hc. apply lang_cat_smart in Hc.
      inversion Hc as [| |r1' r2' s1 s2 Ha Hb| | | |]; subst.
      change (c :: s1 ++ s2) with ((c :: s1) ++ s2). constructor; [now apply IH1 | exact Hb]. }
    destruct (nullable r1) eqn:Hn; [|now apply Hleft].
    apply lang_alt_smart in H. inversion H; subst; [now apply Hleft|].
    rewrite <- (app_nil_l (c :: s)). constructor; [now apply nullable_lang | now apply IH2].
  - apply lang_alt_smart in H. inversion H; subst;
      [apply lang_alt_l; now apply IH1 | apply lang_alt_r; now apply IH2].
  - apply lang_cat_smart in H.
    inversion H as [| |r1' r2' s1 s2 Ha Hb| | | |]; subst.
    change (c :: s1 ++ s2) with ((c :: s1) ++ s2). constructor; [now apply IH | exact Hb].
Qed.

(** The matcher decides the denotation. *)
Lemma fullmatch_lang (s : str) : forall r, fullmatch r s = true <-> lang r s.
Proof.
  induction s as [|c s IH]; intros r; simpl.
  - apply nullable_lang.
  - rewrite IH. split; [apply deriv_sound | intros H; now apply (deriv_complete r (c :: s))].
Qed.

Lemma lang_any (s : str) : lang (Star any_char) s.
Proof.
  induction s as [|c s IH]; [constructor|].
  change (c :: s) with ([c] ++ s). constructor; [now constructor | exact IH].
Qed.

(** [re.search] succeeds exactly when some substring is denoted. *)
Lemma search_spec (r : regex) (s : str) :
  search r s = true <-> exists a m b, s = a ++ m ++ b /\ lang r m.
Proof.
  unfold search. rewrite fullmatch_lang. split.
  - intros H. inversion H as [| |r1 r2 a mb Ha Hmb| | | |]; subst.
    inversion Hmb as [| |r1 r2 m b Hm Hb| | | |]; subst.
    now exists a, m, b.
  - intros (a & m & b & -> & Hm).
    constructor; [apply lang_any|]. constructor; [exact Hm | apply lang_any].
Qed.

Lemma search_chr (p : char -> bool) (s : str) :
  search (Chr p) s = true <-> exists c, In c s /\ p c = true.
Proof.
  rewrite search_spec. split.
  - intros (a & m & b & -> & Hm). inversion Hm; subst.
    exists c. split; [|assumption]. apply in_or_app. right. now left.
  - intros (c & Hin & Hp). apply in_split in Hin as (a & b & ->).
    exists a, [c], b. split; [reflexivity | now constructor].
Qed.

Lemma lang_seq (ps : list (char -> bool)) (m : str) :
  Forall2 (fun p c => p c = true) ps m -> lang (Seq ps) m.
Proof.
  induction 1 as [|p c ps m Hp _ IH]; simpl; [constructor|].
  change (c :: m) with ([c] ++ m). constructor; [now constructor | exact IH].
Qed.


(** * Properties *)

(** ** The orchestrator *)

Lemma strip_nil : strip [] = [].
Proof. reflexivity. Qed.

Lemma long_strip_truthy (t : str) (n : Z) :
  0 <= n -> (n <? len (strip t)) = true -> truthy t = true.
Proof.
  intros Hn H. destruct t as [|c t]; [|reflexivity].
  rewrite strip_nil in H. unfold len in H. simpl in H.
  apply Z.ltb_lt in H. lia.
Qed.

Lemma accept_threshold (t : str) (n : Z) :
  0 <= n -> truthy t && (n <? len (strip t)) = (n <? len (strip t)).
Proof.
  intros Hn. destruct (n <? len (strip t)) eqn:E.
  - now rewrite (long_strip_truthy t n Hn E).
  - apply andb_false_r.
Qed.

(** [_extract_with_ole] returns a string whatever the package and the file
    system do: every exception ends in its handlers. *)
Lemma extract_with_ole_cases (file_data : bytes) :
  _extract_with_ole file_data = []
  \/ exists stream_data,
       ole_read ole file_data = Ok stream_data
       /\ _extract_with_ole file_data = _parse_stream_data stream_data.
Proof.
  unfold _extract_with_ole, try_except, finally, bind.
  destruct (import_olefile ole); [|now left].
  destruct (tmp_write ole file_data); [|now left].
  destruct (tmp_unlink ole file_data); [|now left].
  destruct (isOleFile ole file_data) as [[|]|]; [|now left|now left].
  simpl.
  destruct (OleFileIO ole file_data); [|now left].
  destruct (ole_exists ole file_data) as [[|]|]; [| |now left].
  - destruct (ole_read ole file_data) as [stream_data|]; [|now left].
    destruct (stream_close ole file_data); [|now left].
    destruct (ole_close ole file_data); [|now left].
    destruct (truthy (_parse_stream_data stream_data)) eqn:E.
    + right. exists stream_data. split; reflexivity.
    + left. reflexivity.
  - destruct (ole_close ole file_data); now left.
Qed.

(** C1. For every byte sequence [extract_text_from_wps_stream] returns a
    string: the body of its [try] ends normally with that string, which is
    a cleaned text or the fixed message, whatever the [olefile] package and
    the temporary file do; and were a call of the body to raise an
    exception with message [e], the [except] clause would turn it into the
    failure message built from [e]. *)
Theorem extract_total (byte_stream : bytes) :
  (exists s,
      extract_body (fun d => Ok (_extract_with_ole d))
                   (fun d => Ok (_extract_with_binary d))
                   (fun t => Ok (_clean_text t)) byte_stream = Ok s
      /\ extract_text_from_wps_stream byte_stream = s
      /\ (s = _clean_text (_extract_with_ole byte_stream)
          \/ s = _clean_text (_extract_with_binary byte_stream)
          \/ s = no_text_message))
  /\ (forall with_ole with_binary clean,
        extract_guarded with_ole with_binary clean byte_stream
        = match extract_body with_ole with_binary clean byte_stream with
          | Ok s => s
          | Raise e => failure_message e
          end)
  /\ (forall with_binary clean e,
        extract_guarded (fun _ => Raise e) with_binary clean byte_stream
        = failure_message e).
Proof.
  split; [|split].
  - unfold extract_text_from_wps_stream, extract_guarded, extract_body, try_except, bind.
    destruct (truthy (_extract_with_ole byte_stream)
              && (20 <? len (strip (_extract_with_ole byte_stream)))).
    + eexists. split; [reflexivity|]. split; [reflexivity|]. now left.
    + destruct (truthy (_extract_with_binary byte_stream)
                && (10 <? len (strip (_extract_with_binary byte_stream)))).
      * eexists. split; [reflexivity|]. split; [reflexivity|]. right. now left.
      * eexists. split; [reflexivity|]. split; [reflexivity|]. right. now right.
  - reflexivity.
  - reflexivity.
Qed.


(** The orchestrator as a chain of two tests on trimmed lengths. *)
Lemma extract_by_thresholds (byte_stream : bytes) :
  extract_text_from_wps_stream byte_stream
  = if 20 <? len (strip (_extract_with_ole byte_stream))
    then _clean_text (_extract_with_ole byte_stream)
    else if 10 <? len (strip (_extract_with_binary byte_stream))
    then _clean_text (_extract_with_binary byte_stream)
    else no_text_message.
Proof.
  unfold extract_text_from_wps_stream, extract_guarded, extract_body, try_except, bind.
  rewrite (accept_threshold (_extract_with_ole byte_stream) 20),
          (accept_threshold (_extract_with_binary byte_stream) 10) by lia.
  destruct (20 <? len (strip (_extract_with_ole byte_stream))); [reflexivity|].
  destruct (10 <? len (strip (_extract_with_binary byte_stream))); reflexivity.
Qed.

(** C3. The two acceptance thresholds are strict: the text of the
    container tier goes to [_clean_text] exactly when its trimmed length
    exceeds 20 (at 20 or below the binary tier is tried), and the text of
    the binary tier goes to [_clean_text] exactly when its trimmed length
    exceeds 10; otherwise the fixed message is returned. *)
Theorem thresholds_strict (byte_stream : bytes) :
  let ole_text := _extract_with_ole byte_stream in
  let binary_text := _extract_with_binary byte_stream in
  (extract_text_from_wps_stream byte_stream
   = if 20 <? len (strip ole_text) then _clean_text ole_text
     else if 10 <? len (strip binary_text) then _clean_text binary_text
     else no_text_message)
  /\ (len (strip ole_text) = 21 ->
      extract_text_from_wps_stream byte_stream = _clean_text ole_text)
  /\ (len (strip ole_text) = 20 ->
      extract_text_from_wps_stream byte_stream
      = if 10 <? len (strip binary_text) then _clean_text binary_text
        else no_text_message).
Proof.
  intros ole_text binary_text. split; [apply extract_by_thresholds|]. split.
  - intros H. rewrite extract_by_thresholds. fold ole_text. now rewrite H.
  - intros H. rewrite extract_by_thresholds. fold ole_text. fold binary_text.
    now rewrite H.
Qed.

(** ** The running example of the specification *)

(** C7. When the accepted text is the two sentences of the example, each
    closed by an ideographic full stop, [_clean_text] returns them joined
    by a full stop and a space, with a full stop at the end. *)
Theorem clean_text_end_to_end :
  _clean_text (u "人工智能技术正在快速发展。机器学习是其核心驱动力。")
  = u "人工智能技术正在快速发展. 机器学习是其核心驱动力.".
Proof. vm_compute. reflexivity. Qed.

(** ** The meaningful-text filter *)

Lemma plain_printable (c : char) : plain c = true -> isprintable c = true.
Proof.
  unfold plain, isprintable, in_range. intros H.
  destruct (c <? 0x80) eqn:E.
  - apply Z.ltb_lt in E. apply orb_true_iff in H as [H|H]; [exact H|].
    apply andb_true_iff in H as [H _]. apply Z.leb_le in H. lia.
  - apply Z.ltb_ge in E. apply orb_true_iff in H as [H|H].
    + apply andb_true_iff in H as [_ H]. apply Z.leb_le in H. lia.
    + now apply ideographs_printable.
Qed.

Lemma filter_printable_plain (s : str) :
  forallb plain s = true ->
  filter (fun c => isprintable c || mem c [0x0A; 0x09; 0x20]) s = s.
Proof.
  induction s as [|c s IH]; intros H; [reflexivity|].
  cbn [forallb] in H. apply andb_true_iff in H as [Hc Hs].
  cbn [filter]. rewrite (plain_printable c Hc). cbn [orb]. now rewrite IH.
Qed.


Lemma str_eqb_eq (a b : str) : str_eqb a b = true <-> a = b.
Proof.
  revert b. induction a as [|x a IH]; intros [|y b]; simpl; split; intros H;
    try reflexivity; try discriminate.
  - apply andb_true_iff in H as [Hx Ha]. apply Z.eqb_eq in Hx.
    apply IH in Ha. now subst.
  - injection H as -> ->. rewrite Z.eqb_refl. simpl. now apply IH.
Qed.

Lemma kept_inv {A : Type} (o : option A) (a : A) : In a (kept o) <-> o = Some a.
Proof.
  destruct o as [b|]; simpl; split; intros H.
  - destruct H as [->|[]]. reflexivity.
  - injection H as ->. now left.
  - destruct H.
  - discriminate.
Qed.

(** A paragraph that is kept does not match a metadata pattern. *)
Lemma keep_paragraph_not_metadata (paragraph seg : str) :
  keep_paragraph paragraph = Some seg -> _is_metadata seg = false.
Proof.
  unfold keep_paragraph.
  destruct (len (strip paragraph) <? 5); [discriminate|].
  destruct (negb (truthy (strip (filter _ (strip paragraph))))); [discriminate|].
  destruct (_is_metadata (filter _ (strip paragraph))) eqn:E; [discriminate|].
  destruct (_ || _); [|discriminate].
  intros H. injection H as <-. exact E.
Qed.

Lemma keep_body_paragraph : keep_paragraph body_paragraph = Some body_paragraph.
Proof.
  unfold keep_paragraph.
  replace (strip body_paragraph) with body_paragraph by (vm_compute; reflexivity).
  rewrite filter_printable_plain by (vm_compute; reflexivity).
  vm_compute. reflexivity.
Qed.

(** C8. The paragraph "Times New Roman" is passed over by the filter, on its
    own and in any text, since it matches a metadata pattern; the paragraph
    of thirteen ideographs is kept, on its own and wherever it stands as a
    paragraph of a text. *)
Theorem metadata_paragraph_dropped_body_kept :
  keep_paragraph times_new_roman = None
  /\ keep_paragraph body_paragraph = Some body_paragraph
  /\ (forall text seg, In seg (meaningful_segments text) -> str_eqb seg times_new_roman = false)
  /\ (forall text, In body_paragraph (split_runs is_c0_control text) ->
                   In body_paragraph (meaningful_segments text))
  /\ _extract_meaningful_text (times_new_roman ++ newline ++ body_paragraph) = body_paragraph.
Proof.
  split; [|split; [|split; [|split]]].
  - vm_compute. reflexivity.
  - exact keep_body_paragraph.
  - intros text seg Hin.
    unfold meaningful_segments in Hin. apply in_flat_map in Hin as [p [_ Hp]].
    apply kept_inv in Hp. apply keep_paragraph_not_metadata in Hp.
    destruct (str_eqb seg times_new_roman) eqn:E; [|reflexivity].
    apply str_eqb_eq in E. subst seg. vm_compute in Hp. discriminate.
  - intros text Hin. unfold meaningful_segments. apply in_flat_map.
    exists body_paragraph. split; [exact Hin|].
    apply kept_inv. exact keep_body_paragraph.
  - unfold _extract_meaningful_text.
    replace (negb (truthy _) || (len (strip _) <? 5)) with false by (vm_compute; reflexivity).
    unfold meaningful_segments.
    replace (split_runs is_c0_control (times_new_roman ++ newline ++ body_paragraph))
      with [times_new_roman; body_paragraph] by (vm_compute; reflexivity).
    cbn [flat_map]. rewrite keep_body_paragraph.
    replace (keep_paragraph times_new_roman) with (@None str) by (vm_compute; reflexivity).
    reflexivity.
Qed.

(** ** The fallback on a buffer that is no container *)

Lemma zeros_binary : _extract_with_binary (repeat x00 100) = [].
Proof. vm_compute. reflexivity. Qed.

(** C9. On a buffer of 100 zero bytes that the reader does not take for a
    container, the container tier yields nothing, no decoding of the binary
    tier yields a paragraph, and the fixed message is returned. *)
Theorem zero_buffer_no_text :
  isOleFile ole (repeat x00 100) = Ok false ->
  _extract_with_ole (repeat x00 100) = []
  /\ _extract_with_binary (repeat x00 100) = []
  /\ extract_text_from_wps_stream (repeat x00 100) = no_text_message.
Proof.
  intros Hreject.
  assert (Hole : _extract_with_ole (repeat x00 100) = []).
  { unfold _extract_with_ole, try_except, finally, bind.
    destruct (import_olefile ole); [|reflexivity].
    destruct (tmp_write ole (repeat x00 100)); [|reflexivity].
    rewrite Hreject.
    destruct (tmp_unlink ole (repeat x00 100)); reflexivity. }
  split; [exact Hole|]. split; [exact zeros_binary|].
  rewrite extract_by_thresholds, Hole, zeros_binary. reflexivity.
Qed.


(** ** What enters the output of the cleaner *)

(** A unit that the detector does not call garbled holds an ideograph:
    with none the ratio is zero, which is below the threshold. *)
Lemma not_garbled_has_cjk (s : str) :
  _is_garbled_text s = false -> search (Chr is_cjk) s = true.
Proof.
  unfold _is_garbled_text.
  destruct (negb (truthy s) || (len s <? 3)); [discriminate|].
  destruct (len (remove_class isspace s) =? 0); [discriminate|].
  unfold count_class at 1.
  destruct (filter is_cjk s) as [|c l] eqn:E.
  - unfold len at 1. cbn [List.length Z.of_nat]. unfold truediv.
    cbn [Z.eqb]. replace (float_lt (mkFloat 0 0) float_0_4) with true by reflexivity.
    discriminate.
  - intros _. apply search_chr. exists c.
    assert (Hin : In c (filter is_cjk s)) by (rewrite E; now left).
    apply filter_In in Hin. exact Hin.
Qed.

Lemma keep_sentence_inv (part s : str) :
  keep_sentence part = Some s ->
  search (Chr is_cjk) (strip part) = true
  /\ s = clean_part (strip part)
  /\ _is_garbled_text s = false
  /\ 8 < len s.
Proof.
  unfold keep_sentence.
  destruct (negb (truthy (strip part))); [discriminate|].
  destruct (search (Chr is_cjk) (strip part)); [|discriminate].
  destruct (_is_garbled_text (clean_part (strip part))) eqn:G; [discriminate|].
  destruct (8 <? len (clean_part (strip part))) eqn:L; [|discriminate].
  cbn [negb andb]. intros H. injection H as <-.
  repeat split; try assumption. now apply Z.ltb_lt.
Qed.

(** C6. Every unit that [_clean_text] appends to its sentences comes from a
    part that holds an ideograph, which is tested first, and is then, after
    the basic cleaning, not garbled for the detector; the unit itself holds
    an ideograph and is longer than 8 characters. The output is assembled
    from these units alone. *)
Theorem output_units_filtered (text s : str) :
  In s (sentences_of text) ->
  (exists part,
      In part (split_class is_sentence_end (remove_class is_control text))
      /\ search (Chr is_cjk) (strip part) = true
      /\ s = clean_part (strip part))
  /\ _is_garbled_text s = false
  /\ search (Chr is_cjk) s = true
  /\ 8 < len s
  /\ _clean_text text = assemble (sentences_of text).
Proof.
  intros Hin. unfold sentences_of in Hin.
  apply in_flat_map in Hin as (part & Hpart & Hs).
  apply kept_inv, keep_sentence_inv in Hs as (Hcjk & Hclean & Hgarbled & Hlen).
  split; [exists part; now repeat split|].
  split; [exact Hgarbled|]. split; [now apply not_garbled_has_cjk|].
  split; [exact Hlen|].
  unfold _clean_text. destruct text as [|c text]; [|reflexivity].
  vm_compute. reflexivity.
Qed.


(** ** Metadata signatures inside a paragraph *)

Lemma is_letter_bounds (c : char) :
  is_letter c = true -> (0x41 <= c <= 0x5A) \/ (0x61 <= c <= 0x7A).
Proof.
  unfold is_letter, is_upper, is_lower, in_range. intros H.
  apply orb_true_iff in H as [H|H]; apply andb_true_iff in H as [H1 H2];
    apply Z.leb_le in H1, H2; lia.
Qed.

Lemma is_letter_intro (c : char) :
  (0x41 <= c <= 0x5A) \/ (0x61 <= c <= 0x7A) -> is_letter c = true.
Proof.
  unfold is_letter, is_upper, is_lower, in_range. intros H.
  apply orb_true_iff.
  destruct H as [H|H]; [left|right]; apply andb_true_iff; split; apply Z.leb_le; lia.
Qed.

Lemma ascii_lower_cases (c : char) :
  (0x41 <= c <= 0x5A /\ ascii_lower c = c + 32)
  \/ (~ (0x41 <= c <= 0x5A) /\ ascii_lower c = c).
Proof.
  unfold ascii_lower, is_upper, in_range.
  destruct (65 <=? c) eqn:E1; destruct (c <=? 90) eqn:E2; simpl;
    try apply Z.leb_le in E1; try apply Z.leb_le in E2;
    try apply Z.leb_gt in E1; try apply Z.leb_gt in E2;
    [left|right|right|right]; split; try reflexivity; lia.
Qed.

Lemma same_case_letter (v l : char) :
  ascii_lower v = ascii_lower l -> is_letter l = true -> is_letter v = true.
Proof.
  intros H Hl. apply is_letter_bounds in Hl. apply is_letter_intro.
  destruct (ascii_lower_cases v) as [[? Hv]|[? Hv]],
           (ascii_lower_cases l) as [[? Hl']|[? Hl']]; lia.
Qed.

Lemma same_case_space (v : char) : ascii_lower v = ascii_lower 0x20 -> v = 0x20.
Proof.
  change (ascii_lower 32) with 32.
  destruct (ascii_lower_cases v) as [[? Hv]|[? Hv]]; lia.
Qed.

Lemma isspace_cases (c : char) :
  isspace c = true ->
  0x09 <= c <= 0x0D \/ 0x1C <= c <= 0x20 \/ c = 0x85 \/ c = 0xA0 \/ 0x1680 <= c.
Proof.
  unfold isspace, in_range. intros H.
  repeat match type of H with
         | _ || _ = true => apply orb_true_iff in H as [H|H]
         end;
    repeat match type of H with
           | _ && _ = true => apply andb_true_iff in H as [H ?]
           end;
    repeat match goal with
           | X : (_ <=? _) = true |- _ => apply Z.leb_le in X
           | X : (_ =? _) = true |- _ => apply Z.eqb_eq in X
           end; lia.
Qed.

Lemma letter_not_space (c : char) : is_letter c = true -> isspace c = false.
Proof.
  intros H. apply is_letter_bounds in H.
  destruct (isspace c) eqn:E; [|reflexivity].
  apply isspace_cases in E. lia.
Qed.

Lemma letter_printable (c : char) : is_letter c = true -> isprintable c = true.
Proof.
  intros H. apply is_letter_bounds in H. unfold isprintable, in_range.
  replace (c <? 128) with true by (symmetry; apply Z.ltb_lt; lia).
  apply andb_true_iff. split; apply Z.leb_le; lia.
Qed.

Lemma same_case_starts (variant lit : str) :
  same_ignoring_case variant lit ->
  starts_with_letter lit = true -> starts_with_letter variant = true.
Proof.
  unfold same_ignoring_case.
  destruct variant as [|v vs], lit as [|l ls]; simpl; try discriminate.
  intros H. injection H as H _. now apply same_case_letter.
Qed.

Lemma same_case_wordy (variant lit : str) :
  same_ignoring_case variant lit -> wordy lit = true -> wordy variant = true.
Proof.
  intros Hsame H. unfold wordy in *.
  apply andb_true_iff in H as [H Hall]. apply andb_true_iff in H as [Hfirst Hlast].
  repeat (apply andb_true_iff; split).
  - now apply (same_case_starts variant lit).
  - apply (same_case_starts (rev variant) (rev lit)); [|exact Hlast].
    unfold same_ignoring_case in *. now rewrite !map_rev, Hsame.
  - clear Hfirst Hlast. revert lit Hsame Hall.
    induction variant as [|v vs IH]; intros [|l ls] Hsame Hall; try discriminate;
      [reflexivity|].
    unfold same_ignoring_case in Hsame. simpl in Hsame. injection Hsame as Hv Hvs.
    simpl in Hall. apply andb_true_iff in Hall as [Hl Hls].
    simpl. apply andb_true_iff. split; [|now apply (IH ls)].
    apply orb_true_iff in Hl as [Hl|Hl].
    + apply orb_true_iff. left. now apply (same_case_letter v l).
    + apply Z.eqb_eq in Hl. subst l. apply same_case_space in Hv. subst v. reflexivity.
Qed.

Lemma same_case_matches (variant lit : str) :
  same_ignoring_case variant lit -> lang (Lit_i lit) variant.
Proof.
  intros Hsame. apply lang_seq. revert variant Hsame.
  induction lit as [|l ls IH]; intros [|v vs] Hsame; try discriminate; simpl;
    constructor.
  - unfold same_ignoring_case in Hsame. simpl in Hsame. injection Hsame as Hv _.
    unfold ignorecase, folds_to. rewrite Hv, Z.eqb_refl. reflexivity.
  - apply IH. unfold same_ignoring_case in *. simpl in Hsame. now injection Hsame.
Qed.

(** Trimming a string leaves a word inside it in place. *)
Lemma lstrip_keeps (pre w post : str) :
  starts_with_letter w = true ->
  exists pre', lstrip (pre ++ w ++ post) = pre' ++ w ++ post.
Proof.
  intros Hw. induction pre as [|c pre IH]; simpl.
  - exists []. destruct w as [|x w]; [discriminate|]. simpl in *.
    now rewrite (letter_not_space x Hw).
  - destruct (isspace c); [exact IH|]. now exists (c :: pre).
Qed.

Lemma strip_keeps (pre w post : str) :
  starts_with_letter w = true -> starts_with_letter (rev w) = true ->
  exists pre' post', strip (pre ++ w ++ post) = pre' ++ w ++ post'.
Proof.
  intros Hfirst Hlast. unfold strip, rstrip.
  destruct (lstrip_keeps pre w post Hfirst) as [pre' ->].
  rewrite !rev_app_distr, <- app_assoc.
  destruct (lstrip_keeps (rev post) (rev w) (rev pre') Hlast) as [post' ->].
  exists pre', (rev post').
  now rewrite !rev_app_distr, !rev_involutive, <- app_assoc.
Qed.

Lemma filter_keeps_wordy (w : str) :
  forallb (fun c => is_letter c || (c =? 0x20)) w = true ->
  filter (fun c => isprintable c || mem c [0x0A; 0x09; 0x20]) w = w.
Proof.
  induction w as [|c w IH]; intros H; [reflexivity|].
  cbn [forallb] in H. apply andb_true_iff in H as [Hc Hw].
  cbn [filter].
  replace (isprintable c || mem c [10; 9; 32]) with true; [now rewrite IH|].
  symmetry. apply orb_true_iff in Hc as [Hc|Hc].
  - now rewrite (letter_printable c Hc).
  - apply Z.eqb_eq in Hc. subst c. reflexivity.
Qed.

Lemma literal_pattern_listed (lit : str) :
  In lit metadata_literals -> In (Anywhere (Lit_i lit)) metadata_patterns.
Proof.
  unfold metadata_literals, metadata_patterns. intros H.
  repeat (destruct H as [<-|H]; [left; reflexivity | right]).
  destruct H.
Qed.

Lemma literals_wordy (lit : str) : In lit metadata_literals -> wordy lit = true.
Proof.
  assert (H : forallb wordy metadata_literals = true) by (vm_compute; reflexivity).
  intros Hin. now apply (proj1 (forallb_forall _ _) H).
Qed.

Lemma split_runs_single (p : char -> bool) (s : str) :
  forallb (fun c => negb (p c)) s = true ->
  forall in_run, s <> [] -> split_runs_from p in_run s = [s].
Proof.
  induction s as [|c s IH]; intros H in_run Hne; [contradiction|].
  cbn [forallb] in H. apply andb_true_iff in H as [Hc Hs].
  apply negb_true_iff in Hc. cbn [split_runs_from]. rewrite Hc.
  destruct s as [|d s]; [reflexivity|].
  rewrite (IH Hs false) by discriminate. reflexivity.
Qed.

Lemma wordy_no_control (w : str) :
  forallb (fun c => is_letter c || (c =? 0x20)) w = true ->
  forallb (fun c => negb (is_c0_control c)) w = true.
Proof.
  induction w as [|c w IH]; intros H; [reflexivity|].
  cbn [forallb] in *. apply andb_true_iff in H as [Hc Hw].
  rewrite (IH Hw), andb_true_r. apply negb_true_iff.
  unfold is_c0_control, in_range.
  apply orb_true_iff in Hc as [Hc|Hc].
  - apply is_letter_bounds in Hc. apply andb_false_iff. right. apply Z.leb_gt. lia.
  - apply Z.eqb_eq in Hc. subst c. reflexivity.
Qed.

(** C10. A paragraph that holds one of the literal metadata signatures
    anywhere inside it, in any letter case, is passed over by the filter,
    whatever else it holds; a text that is this one paragraph yields
    nothing. *)
Theorem signature_inside_paragraph_dropped (lit variant pre post : str) :
  In lit metadata_literals ->
  same_ignoring_case variant lit ->
  keep_paragraph (pre ++ variant ++ post) = None
  /\ (forallb (fun c => negb (is_c0_control c)) (pre ++ post) = true ->
      _extract_meaningful_text (pre ++ variant ++ post) = []).
Proof.
  intros Hlit Hsame.
  pose proof (same_case_wordy variant lit Hsame (literals_wordy lit Hlit)) as Hw.
  unfold wordy in Hw. apply andb_true_iff in Hw as [Hw Hall].
  apply andb_true_iff in Hw as [Hfirst Hlast].
  assert (Hdrop : keep_paragraph (pre ++ variant ++ post) = None).
  { unfold keep_paragraph.
    destruct (strip_keeps pre variant post Hfirst Hlast) as (pre' & post' & ->).
    destruct (len (pre' ++ variant ++ post') <? 5); [reflexivity|].
    rewrite !filter_app, (filter_keeps_wordy variant Hall).
    destruct (negb (truthy (strip _))); [reflexivity|].
    replace (_is_metadata _) with true; [reflexivity|].
    symmetry. unfold _is_metadata. apply existsb_exists.
    exists (Anywhere (Lit_i lit)). split; [now apply literal_pattern_listed|].
    cbn [re_search]. apply search_spec.
    eexists _, variant, _. split; [reflexivity | now apply same_case_matches]. }
  split; [exact Hdrop|].
  intros Hplain. unfold _extract_meaningful_text.
  destruct (negb (truthy _) || _); [reflexivity|].
  unfold meaningful_segments, split_runs.
  rewrite split_runs_single.
  - cbn [flat_map]. rewrite Hdrop. reflexivity.
  - rewrite forallb_app in Hplain. apply andb_true_iff in Hplain as [Hpre Hpost].
    rewrite !forallb_app, Hpre, Hpost, (wordy_no_control variant Hall). reflexivity.
  - destruct variant; [discriminate|]. destruct pre; discriminate.
Qed.

End Extractor.

(** * Instances of the properties with hypotheses *)

Lemma sample_ideographs_printable (c : char) :
  in_range 0x4E00 0x9FA5 c = true -> sample_printable c = true.
Proof. unfold sample_printable. intros ->. reflexivity. Qed.

Lemma sample_whitespace_not_alnum (c : char) :
  isspace c = true -> sample_alnum c = false.
Proof.
  unfold sample_alnum, isspace, in_range. intros H.
  destruct ((19968 <=? c) && (c <=? 40869)) eqn:E; [|reflexivity].
  apply andb_true_iff in E as [E1 E2]. apply Z.leb_le in E1, E2.
  repeat match type of H with
         | _ || _ = true => apply orb_true_iff in H as [H|H]
         end;
    repeat match type of H with
           | _ && _ = true => apply andb_true_iff in H as [H ?]
           end;
    repeat match goal with
           | X : (_ <=? _) = true |- _ => apply Z.leb_le in X
           | X : (_ =? _) = true |- _ => apply Z.eqb_eq in X
           end; lia.
Qed.

(** The container tier at exactly 20 and at exactly 21 characters: a stream
    of 20, then 21, times the bytes 80 80, which is U+8080 in UTF-16LE and
    nothing in the two other encodings. *)
Lemma thresholds_strict_witness :
  (len (strip (_extract_with_ole sample_printable sample_gbk
                 (sample_container (repeat x80 40)) sample_file)) = 20
   /\ extract_text_from_wps_stream sample_printable sample_alnum sample_decimal sample_gbk
        (sample_container (repeat x80 40)) sample_file
      = no_text_message)
  /\ (len (strip (_extract_with_ole sample_printable sample_gbk
                    (sample_container (repeat x80 42)) sample_file)) = 21
      /\ extract_text_from_wps_stream sample_printable sample_alnum sample_decimal sample_gbk
           (sample_container (repeat x80 42)) sample_file
         = u "肀肀肀肀肀肀肀肀肀肀肀肀肀肀肀肀肀肀肀肀肀.").
Proof.
  split.
  - split; [vm_compute; reflexivity|].
    rewrite (proj2 (proj2 (thresholds_strict sample_printable sample_alnum sample_decimal
                             sample_gbk (sample_container (repeat x80 40)) sample_file)))
      by (vm_compute; reflexivity).
    vm_compute. reflexivity.
  - split; [vm_compute; reflexivity|].
    rewrite (proj1 (proj2 (thresholds_strict sample_printable sample_alnum sample_decimal
                             sample_gbk (sample_container (repeat x80 42)) sample_file)))
      by (vm_compute; reflexivity).
    vm_compute. reflexivity.
Defined.

Lemma metadata_paragraph_dropped_body_kept_witness :
  keep_paragraph sample_printable body_paragraph = Some body_paragraph
  /\ _extract_meaningful_text sample_printable
       (times_new_roman ++ newline ++ body_paragraph) = body_paragraph.
Proof.
  pose proof (metadata_paragraph_dropped_body_kept sample_printable
                sample_ideographs_printable) as H.
  split; [apply H | apply H].
Defined.

Lemma zero_buffer_no_text_witness :
  isOleFile sample_ole (repeat x00 100) = Ok false
  /\ extract_text_from_wps_stream sample_printable sample_alnum sample_decimal sample_gbk
       sample_ole (repeat x00 100) = no_text_message.
Proof.
  split; [reflexivity|].
  apply (zero_buffer_no_text sample_printable sample_alnum sample_decimal sample_gbk sample_ole).
  reflexivity.
Defined.

Lemma output_units_filtered_witness :
  In (u "人工智能技术正在快速发展")
     (sentences_of sample_alnum sample_decimal
        (u "人工智能技术正在快速发展。机器学习是其核心驱动力。"))
  /\ _is_garbled_text sample_decimal (u "人工智能技术正在快速发展") = false
  /\ search (Chr is_cjk) (u "人工智能技术正在快速发展") = true.
Proof.
  assert (Hin : In (u "人工智能技术正在快速发展")
                   (sentences_of sample_alnum sample_decimal
                      (u "人工智能技术正在快速发展。机器学习是其核心驱动力。")))
    by (vm_compute; left; reflexivity).
  split; [exact Hin|].
  pose proof (output_units_filtered sample_alnum sample_decimal _ _ Hin) as H.
  split; apply H.
Defined.

Lemma signature_inside_paragraph_dropped_witness :
  (In (u "Arial") metadata_literals /\ same_ignoring_case (u "aRiAL") (u "Arial"))
  /\ keep_paragraph sample_printable (u "这份文档使用aRiAL字体排版") = None
  /\ _extract_meaningful_text sample_printable (u "这份文档使用aRiAL字体排版") = [].
Proof.
  assert (Hin : In (u "Arial") metadata_literals)
    by (unfold metadata_literals; do 7 right; left; reflexivity).
  assert (Hsame : same_ignoring_case (u "aRiAL") (u "Arial")) by reflexivity.
  split; [split; assumption|].
  pose proof (signature_inside_paragraph_dropped sample_printable
                (u "Arial") (u "aRiAL") (u "这份文档使用") (u "字体排版") Hin Hsame)
    as [Hdrop Hall].
  split; [exact Hdrop | apply Hall; reflexivity].
Defined.
